(** * The generated Windows plugin registrant

    A shallow embedding of [RegisterPlugins], the one function of
    [windows/flutter/generated_plugin_registrant.cc], and the properties
    its specification states about it.

    The function is straight-line glue: eight times it asks the host
    registry for a registrar handle by name and hands that handle to a
    plugin's [...RegisterWithRegistrar] entry point.  Everything it talks to
    (the registry object and the eight entry points) lives outside the
    file, so the embedding takes their behaviour as parameters and records
    every external call of a run in a trace. *)

From Stdlib Require Import Sorted.
From stdpp Require Import base list strings sorting.

Local Open Scope string_scope.

(** ** The plugins named in the file *)

(** One constructor per [#include]d plugin, in the order of the file.  The
    entry point of plugin [P] is the symbol [P ++ "RegisterWithRegistrar"]. *)
Inductive Plugin : Type :=
  | FileSelectorWindows
  | FlutterSecureStorageWindowsPlugin
  | FlutterTimezonePluginCApi
  | MediaKitVideoPluginCApi
  | PermissionHandlerWindowsPlugin
  | SimpleAnimationProgressBarPluginCApi
  | UrlLauncherWindows
  | VolumeControllerPluginCApi.

#[global] Instance Plugin_eq_dec : EqDecision Plugin.
Proof. solve_decision. Defined.

(** The string literal that the file passes to [GetRegistrarForPlugin] in
    the statement that calls the plugin's entry point. *)
Definition plugin_name (p : Plugin) : string :=
  match p with
  | FileSelectorWindows => "FileSelectorWindows"
  | FlutterSecureStorageWindowsPlugin => "FlutterSecureStorageWindowsPlugin"
  | FlutterTimezonePluginCApi => "FlutterTimezonePluginCApi"
  | MediaKitVideoPluginCApi => "MediaKitVideoPluginCApi"
  | PermissionHandlerWindowsPlugin => "PermissionHandlerWindowsPlugin"
  | SimpleAnimationProgressBarPluginCApi =>
      "SimpleAnimationProgressBarPluginCApi"
  | UrlLauncherWindows => "UrlLauncherWindows"
  | VolumeControllerPluginCApi => "VolumeControllerPluginCApi"
  end.

(** The plugins in the textual order of the eight statements. *)
Definition all_plugins : list Plugin :=
  [ FileSelectorWindows; FlutterSecureStorageWindowsPlugin;
    FlutterTimezonePluginCApi; MediaKitVideoPluginCApi;
    PermissionHandlerWindowsPlugin; SimpleAnimationProgressBarPluginCApi;
    UrlLauncherWindows; VolumeControllerPluginCApi ].

(** Byte-wise lexicographic order on names, as [strcmp] orders them. *)
Definition name_lt (a b : string) : Prop := String.ltb a b = true.

(** A C++ pointer: null, or the address of an object. *)
Inductive pointer (T : Type) : Type :=
  | nullptr
  | ptr (obj : T).
Arguments nullptr {T}.
Arguments ptr {T} obj.

Section Host.

(** The host side is opaque to the file:
    - [World] is all state outside [RegisterPlugins]: the registry, the
      plugins, the rest of the process;
    - [Registrar] is the registrar handle a lookup hands back;
    - [Failure] is whatever an external call may raise. *)
Variables World Registrar Failure : Type.

(** An external function: runs in a world, leaves a world, and either
    returns a value or raises. *)
Definition external (A : Type) : Type := World -> (Failure + A) * World.

(** [flutter::PluginRegistry]: an object whose one method used here is
    virtual, so a registry is its implementation of that method. *)
Record PluginRegistry : Type :=
  { GetRegistrarForPlugin : string -> external Registrar }.

(** The implementations behind the eight [...RegisterWithRegistrar]
    symbols, which other modules define. *)
Variable entry_point : Plugin -> Registrar -> external unit.

(** *** What a run leaves behind *)

(** One record per external call: what was called, the world before, how
    the call ended, and the world after. *)
Inductive Event : Type :=
  | LookupCall (name : string)
           (before : World) (answer : Failure + Registrar) (after : World)
  | RegistrationCall (p : Plugin) (registrar : Registrar)
           (before : World) (answer : Failure + unit) (after : World).

(** The two ways a statement can go wrong: applying [->] to a null
    pointer, or an external call raising. *)
Inductive error : Type :=
  | NullDereference
  | Raised (f : Failure).

Inductive outcome (A : Type) : Type :=
  | Returns (a : A)
  | Throws (e : error).
Arguments Returns {A} a.
Arguments Throws {A} e.

Record Run (A : Type) : Type :=
  { result : outcome A;
    final : World;
    trace : list Event }.
Arguments result {A} r.
Arguments final {A} r.
Arguments trace {A} r.

(** *** Statements: state, failure and trace threaded through *)

Definition M (A : Type) : Type := World -> Run A.

Definition ret {A} (a : A) : M A :=
  fun w => {| result := Returns a; final := w; trace := [] |}.

(** Sequencing.  A failure of the first part ends the run there: there
    is no handler anywhere in the file. *)
Definition bind {A B} (m : M A) (k : A -> M B) : M B :=
  fun w =>
    let r := m w in
    match result r with
    | Returns a =>
        let r' := k a (final r) in
        {| result := result r';
           final := final r';
           trace := trace r ++ trace r' |}
    | Throws e =>
        {| result := Throws e; final := final r; trace := trace r |}
    end.

Notation "x <- m ;; k" := (bind m (fun x => k))
  (at level 100, m at next level, right associativity).
Notation "m ;; k" := (bind m (fun _ => k))
  (at level 100, right associativity).

(** [p->...] on a pointer. *)
Definition deref {T} (p : pointer T) : M T :=
  fun w =>
    match p with
    | nullptr =>
        {| result := Throws NullDereference; final := w; trace := [] |}
    | ptr obj => ret obj w
    end.

(** A call of an external function; [log] says what was called. *)
Definition call {A} (log : World -> Failure + A -> World -> Event)
    (f : external A) : M A :=
  fun w =>
    let '(answer, w') := f w in
    {| result := match answer with
                 | inl e => Throws (Raised e)
                 | inr a => Returns a
                 end;
       final := w';
       trace := [log w answer w'] |}.

(** [registry->GetRegistrarForPlugin(name)] *)
Definition call_GetRegistrarForPlugin
    (registry : pointer PluginRegistry) (name : string) : M Registrar :=
  this <- deref registry ;;
  call (LookupCall name) (GetRegistrarForPlugin this name).

(** [PRegisterWithRegistrar(registrar)] for the plugin [p]. *)
Definition call_entry_point (p : Plugin) (registrar : Registrar) : M unit :=
  call (RegistrationCall p registrar) (entry_point p registrar).

Definition FileSelectorWindowsRegisterWithRegistrar :=
  call_entry_point FileSelectorWindows.
Definition FlutterSecureStorageWindowsPluginRegisterWithRegistrar :=
  call_entry_point FlutterSecureStorageWindowsPlugin.
Definition FlutterTimezonePluginCApiRegisterWithRegistrar :=
  call_entry_point FlutterTimezonePluginCApi.
Definition MediaKitVideoPluginCApiRegisterWithRegistrar :=
  call_entry_point MediaKitVideoPluginCApi.
Definition PermissionHandlerWindowsPluginRegisterWithRegistrar :=
  call_entry_point PermissionHandlerWindowsPlugin.
Definition SimpleAnimationProgressBarPluginCApiRegisterWithRegistrar :=
  call_entry_point SimpleAnimationProgressBarPluginCApi.
Definition UrlLauncherWindowsRegisterWithRegistrar :=
  call_entry_point UrlLauncherWindows.
Definition VolumeControllerPluginCApiRegisterWithRegistrar :=
  call_entry_point VolumeControllerPluginCApi.

(** *** The function *)

(** [void RegisterPlugins(flutter::PluginRegistry* registry)].  In each
    statement the argument, the lookup, is evaluated before the entry
    point is entered. *)
Definition RegisterPlugins (registry : pointer PluginRegistry) : M unit :=
  r <- call_GetRegistrarForPlugin registry "FileSelectorWindows" ;;
  FileSelectorWindowsRegisterWithRegistrar r ;;
  r <- call_GetRegistrarForPlugin registry
         "FlutterSecureStorageWindowsPlugin" ;;
  FlutterSecureStorageWindowsPluginRegisterWithRegistrar r ;;
  r <- call_GetRegistrarForPlugin registry "FlutterTimezonePluginCApi" ;;
  FlutterTimezonePluginCApiRegisterWithRegistrar r ;;
  r <- call_GetRegistrarForPlugin registry "MediaKitVideoPluginCApi" ;;
  MediaKitVideoPluginCApiRegisterWithRegistrar r ;;
  r <- call_GetRegistrarForPlugin registry
         "PermissionHandlerWindowsPlugin" ;;
  PermissionHandlerWindowsPluginRegisterWithRegistrar r ;;
  r <- call_GetRegistrarForPlugin registry
         "SimpleAnimationProgressBarPluginCApi" ;;
  SimpleAnimationProgressBarPluginCApiRegisterWithRegistrar r ;;
  r <- call_GetRegistrarForPlugin registry "UrlLauncherWindows" ;;
  UrlLauncherWindowsRegisterWithRegistrar r ;;
  r <- call_GetRegistrarForPlugin registry "VolumeControllerPluginCApi" ;;
  VolumeControllerPluginCApiRegisterWithRegistrar r.

(** *** Reading a trace *)

Definition before_of (ev : Event) : World :=
  match ev with
  | LookupCall _ w _ _ => w
  | RegistrationCall _ _ w _ _ => w
  end.

Definition after_of (ev : Event) : World :=
  match ev with
  | LookupCall _ _ _ w => w
  | RegistrationCall _ _ _ _ w => w
  end.

(** What the call raised, if it did. *)
Definition failure_of (ev : Event) : option Failure :=
  match ev with
  | LookupCall _ _ (inl e) _ => Some e
  | RegistrationCall _ _ _ (inl e) _ => Some e
  | _ => None
  end.

(** The name a lookup asked for. *)
Definition lookup_of (ev : Event) : option string :=
  match ev with
  | LookupCall name _ _ _ => Some name
  | RegistrationCall _ _ _ _ _ => None
  end.

(** The entry point a registration call entered and its argument. *)
Definition registration_of (ev : Event) : option (Plugin * Registrar) :=
  match ev with
  | LookupCall _ _ _ _ => None
  | RegistrationCall p r _ _ _ => Some (p, r)
  end.

(** The names looked up, in call order. *)
Definition lookup_names (t : list Event) : list string :=
  omap lookup_of t.

(** The entry points entered, in call order. *)
Definition registered (t : list Event) : list Plugin :=
  omap (fun ev => fst <$> registration_of ev) t.

(** The worlds of consecutive calls link up: the first call starts in
    [w], each later call starts where the previous one stopped, and the
    last one stops in [w']. *)
Fixpoint chained (w : World) (t : list Event) (w' : World) : Prop :=
  match t with
  | [] => w' = w
  | ev :: t' => before_of ev = w /\ chained (after_of ev) t' w'
  end.

(** [t] is, for each plugin of [ps] in turn, a lookup of its name that
    returned a handle and then the call of its entry point on that very
    handle, which returned too. *)
Fixpoint lookup_then_register (ps : list Plugin) (t : list Event) : Prop :=
  match ps, t with
  | [], [] => True
  | p :: ps',
    LookupCall name _ (inr r) _ :: RegistrationCall q r' _ (inr _) _ :: t' =>
      name = plugin_name p /\ q = p /\ r' = r /\ lookup_then_register ps' t'
  | _, _ => False
  end.

(** An external function that never raises. *)
Definition never_raises {A} (f : external A) : Prop :=
  forall w, exists a w', f w = (inr a, w').

(** *** Executions as a relation

    [exec this ps w t out w'] describes the runs of "for each plugin of
    [ps]: look its name up in [this], then enter its entry point" from the
    world [w]: the calls [t] made, how the run ended, and the world left.
    The first call that raises ends the run. *)
Inductive exec (this : PluginRegistry)
  : list Plugin -> World -> list Event -> outcome unit -> World -> Prop :=
  | exec_done w :
      exec this [] w [] (Returns tt) w
  | exec_lookup_raises p ps w e w1 :
      GetRegistrarForPlugin this (plugin_name p) w = (inl e, w1) ->
      exec this (p :: ps) w
        [LookupCall (plugin_name p) w (inl e) w1]
        (Throws (Raised e)) w1
  | exec_entry_raises p ps w r w1 e w2 :
      GetRegistrarForPlugin this (plugin_name p) w = (inr r, w1) ->
      entry_point p r w1 = (inl e, w2) ->
      exec this (p :: ps) w
        [LookupCall (plugin_name p) w (inr r) w1;
         RegistrationCall p r w1 (inl e) w2]
        (Throws (Raised e)) w2
  | exec_next p ps w r w1 w2 t out w' :
      GetRegistrarForPlugin this (plugin_name p) w = (inr r, w1) ->
      entry_point p r w1 = (inr tt, w2) ->
      exec this ps w2 t out w' ->
      exec this (p :: ps) w
        (LookupCall (plugin_name p) w (inr r) w1
           :: RegistrationCall p r w1 (inr tt) w2 :: t)
        out w'.

(** A statement sequence [m] whose every run is an execution over [ps]. *)
Definition follows (this : PluginRegistry) (ps : list Plugin) (m : M unit)
    : Prop :=
  forall w, exec this ps w (trace (m w)) (result (m w)) (final (m w)).

End Host.

Arguments Build_PluginRegistry {World Registrar Failure} _.
Arguments GetRegistrarForPlugin {World Registrar Failure} _ _ _.
Arguments LookupCall {World Registrar Failure} _ _ _ _.
Arguments RegistrationCall {World Registrar Failure} _ _ _ _ _.
Arguments NullDereference {Failure}.
Arguments Raised {Failure} _.
Arguments Returns {Failure A} _.
Arguments Throws {Failure A} _.
Arguments Build_Run {World Registrar Failure A} _ _ _.
Arguments result {World Registrar Failure A} _.
Arguments final {World Registrar Failure A} _.
Arguments trace {World Registrar Failure A} _.
Arguments RegisterPlugins {World Registrar Failure} _ _ _.
Arguments before_of {World Registrar Failure} _.
Arguments after_of {World Registrar Failure} _.
Arguments failure_of {World Registrar Failure} _.
Arguments lookup_of {World Registrar Failure} _.
Arguments registration_of {World Registrar Failure} _.
Arguments lookup_names {World Registrar Failure} _.
Arguments registered {World Registrar Failure} _.
Arguments chained {World Registrar Failure} _ _ _.
Arguments lookup_then_register {World Registrar Failure} _ _.
Arguments never_raises {World Failure A} _.
Arguments ret {World Registrar Failure A} _ _.
Arguments bind {World Registrar Failure A B} _ _ _.
Arguments deref {World Registrar Failure T} _ _.
Arguments call {World Registrar Failure A} _ _ _.
Arguments call_GetRegistrarForPlugin {World Registrar Failure} _ _ _.
Arguments call_entry_point {World Registrar Failure} _ _ _ _.
Arguments exec {World Registrar Failure} _ _ _ _ _ _ _.
Arguments follows {World Registrar Failure} _ _ _ _.

(** [ev] records a call that was really made on the host: the answer and
    the world after it are those that the registry pointed to, or the
    entry point, gives on these arguments in the world before it. *)
Definition performed {W R F} (entry_point : Plugin -> R -> external W F unit)
    (registry : pointer (PluginRegistry W R F)) (ev : Event W R F) : Prop :=
  match registry, ev with
  | nullptr, _ => False
  | ptr this, LookupCall name v answer v' =>
      GetRegistrarForPlugin this name v = (answer, v')
  | ptr this, RegistrationCall p r v answer v' =>
      entry_point p r v = (answer, v')
  end.


(** ** Concrete hosts

    Small hosts on which the statements below are exercised.  Their world
    is a pair: a counter that every external call bumps, and a bystander
    that no call touches.  A registrar handle is a number, a failure a
    message. *)
Module Sample.

Definition world : Type := nat * nat.

(** A registry that answers every name with the length of the name. *)
Definition lookup (name : string) (w : world) : (string + nat) * world :=
  (inr (String.length name), (S w.1, w.2)).

(** Entry points that all succeed. *)
Definition entry (p : Plugin) (r : nat) (w : world) : (string + unit) * world :=
  (inr tt, (S w.1, w.2)).

(** Entry points of which the video plugin's raises, after it has already
    changed the world. *)
Definition picky_entry (p : Plugin) (r : nat) (w : world)
    : (string + unit) * world :=
  if decide (p = MediaKitVideoPluginCApi)
  then (inl "no video output", (w.1 + 100, w.2))
  else entry p r w.

(** A registry that knows no plugin whose name starts with [U]. *)
Definition picky_lookup (name : string) (w : world) : (string + nat) * world :=
  if String.prefix "U" name
  then (inl "unknown plugin", (S w.1, w.2))
  else lookup name w.

Definition quiet : PluginRegistry world nat string :=
  {| GetRegistrarForPlugin := lookup |}.

Definition picky : PluginRegistry world nat string :=
  {| GetRegistrarForPlugin := picky_lookup |}.

End Sample.

(** A registry that knows the eight plugins of the file and nothing else;
    on them it answers as [Sample.quiet] does, and each handle it issues is
    the length of the name asked for. *)
Module Strict.

Definition lookup (name : string) (w : Sample.world)
    : (string + nat) * Sample.world :=
  if decide (name ∈ plugin_name <$> all_plugins)
  then Sample.lookup name w
  else (inl "unknown plugin", w).

Definition registry : PluginRegistry Sample.world nat string :=
  {| GetRegistrarForPlugin := lookup |}.

End Strict.

Section Properties.

Context {World Registrar Failure : Type}.
Variable entry_point : Plugin -> Registrar -> external World Failure unit.

Local Abbreviation Registry := (PluginRegistry World Registrar Failure).
Local Abbreviation Calls := (list (Event World Registrar Failure)).
Local Abbreviation call_entry_point := (call_entry_point entry_point).
Local Abbreviation exec := (exec entry_point).
Local Abbreviation follows := (follows entry_point).
Local Notation "x <- m ;; k" := (bind m (fun x => k))
  (at level 100, m at next level, right associativity).
Local Notation "m ;; k" := (bind m (fun _ => k))
  (at level 100, right associativity).

(** ** The function runs the eight plugins in order *)

Lemma follows_last this p :
  follows this [p]
    (r <- call_GetRegistrarForPlugin (ptr this) (plugin_name p) ;;
     call_entry_point p r).
Proof.
  intros w.
  unfold call_GetRegistrarForPlugin, call_entry_point, call, bind, deref, ret.
  cbn.
  destruct (GetRegistrarForPlugin this (plugin_name p) w)
    as [[e|r] w1] eqn:Hlookup; cbn.
  - by apply exec_lookup_raises.
  - destruct (entry_point p r w1) as [[e|[]] w2] eqn:Hentry; cbn.
    + by eapply exec_entry_raises.
    + eapply exec_next; eauto. apply exec_done.
Qed.

Lemma follows_cons this p ps rest :
  follows this ps rest ->
  follows this (p :: ps)
    (r <- call_GetRegistrarForPlugin (ptr this) (plugin_name p) ;;
     call_entry_point p r ;;
     rest).
Proof.
  intros Hrest w.
  unfold call_GetRegistrarForPlugin, call_entry_point, call, bind, deref, ret.
  cbn.
  destruct (GetRegistrarForPlugin this (plugin_name p) w)
    as [[e|r] w1] eqn:Hlookup; cbn.
  - by apply exec_lookup_raises.
  - destruct (entry_point p r w1) as [[e|[]] w2] eqn:Hentry; cbn.
    + by eapply exec_entry_raises.
    + specialize (Hrest w2).
      destruct (result (rest w2)) eqn:Hres; cbn;
        eapply exec_next; eauto.
Qed.

Lemma RegisterPlugins_exec this :
  follows this all_plugins (RegisterPlugins entry_point (ptr this)).
Proof.
  unfold RegisterPlugins.
  apply (follows_cons this FileSelectorWindows).
  apply (follows_cons this FlutterSecureStorageWindowsPlugin).
  apply (follows_cons this FlutterTimezonePluginCApi).
  apply (follows_cons this MediaKitVideoPluginCApi).
  apply (follows_cons this PermissionHandlerWindowsPlugin).
  apply (follows_cons this SimpleAnimationProgressBarPluginCApi).
  apply (follows_cons this UrlLauncherWindows).
  apply (follows_last this VolumeControllerPluginCApi).
Qed.

(** A run is either the immediate failure on a null registry or an
    execution over the eight plugins against the registry pointed to. *)
Lemma RegisterPlugins_null w :
  RegisterPlugins entry_point nullptr w
  = {| result := Throws NullDereference; final := w; trace := [] |}.
Proof. reflexivity. Qed.

Lemma RegisterPlugins_cases registry w :
  let run := RegisterPlugins entry_point registry w in
  (registry = nullptr /\
   result run = Throws NullDereference /\ final run = w /\ trace run = [])
  \/ (exists this, registry = ptr this /\
       exec this all_plugins w (trace run) (result run) (final run)).
Proof.
  destruct registry as [|this].
  - left. by rewrite RegisterPlugins_null.
  - right. exists this. split; [done|]. apply RegisterPlugins_exec.
Qed.

(** ** Facts about executions, by induction on the relation *)

Section Executions.

Variable this : Registry.

Lemma exec_registered_prefix ps w t out w' :
  exec this ps w t out w' -> registered t `prefix_of` ps.
Proof.
  induction 1; cbn.
  - done.
  - apply prefix_nil.
  - apply prefix_cons, prefix_nil.
  - by apply prefix_cons.
Qed.

Lemma exec_lookup_names_prefix ps w t out w' :
  exec this ps w t out w' -> lookup_names t `prefix_of` (plugin_name <$> ps).
Proof.
  induction 1; cbn.
  - done.
  - apply prefix_cons, prefix_nil.
  - apply prefix_cons, prefix_nil.
  - by apply prefix_cons.
Qed.

Lemma exec_length_le ps w t out w' :
  exec this ps w t out w' -> length t <= 2 * length ps.
Proof. induction 1; cbn in *; lia. Qed.

Lemma exec_chained ps w t out w' :
  exec this ps w t out w' -> chained w t w'.
Proof. induction 1; cbn; auto. Qed.

(** What a run that returns has done. *)
Lemma exec_returns ps w t w' :
  exec this ps w t (Returns tt) w' ->
  registered t = ps /\ lookup_names t = plugin_name <$> ps /\
  length t = 2 * length ps /\ lookup_then_register ps t.
Proof.
  remember (Returns tt) as out eqn:Hout.
  induction 1 as [| | |p ps w r w1 w2 t out w' Hl He Hrest IH];
    try discriminate Hout.
  - done.
  - destruct (IH Hout) as (Hreg & Hnames & Hlen & Hpairs).
    split_and!.
    + change (p :: registered t = p :: ps). by rewrite Hreg.
    + change (plugin_name p :: lookup_names t
              = plugin_name p :: (plugin_name <$> ps)).
      by rewrite Hnames.
    + cbn. lia.
    + by cbn.
Qed.

Lemma exec_performed ps w t out w' :
  exec this ps w t out w' -> Forall (performed entry_point (ptr this)) t.
Proof. induction 1; repeat constructor; done. Qed.

(** In a run that returns, plugin number [k] is served by the calls at
    positions [2k] and [2k+1], both really made. *)
Lemma exec_plugin_at ps w t w' k p :
  exec this ps w t (Returns tt) w' ->
  ps !! k = Some p ->
  exists r w1 w2 w3,
    t !! (2 * k) = Some (LookupCall (plugin_name p) w1 (inr r) w2) /\
    GetRegistrarForPlugin this (plugin_name p) w1 = (inr r, w2) /\
    t !! (2 * k + 1) = Some (RegistrationCall p r w2 (inr tt) w3) /\
    entry_point p r w2 = (inr tt, w3).
Proof.
  remember (Returns tt) as out eqn:Hout.
  intros Hexec. revert k.
  induction Hexec as [| | |q ps w r w1 w2 t out w' Hl He Hrest IH];
    try discriminate Hout; intros k Hk.
  - by destruct k.
  - destruct k as [|k]; cbn in Hk.
    + injection Hk as ->. by exists r, w, w1, w2.
    + destruct (IH Hout k Hk) as (r' & v1 & v2 & v3 & Hget & ? & Hreg & ?).
      exists r', v1, v2, v3.
      replace (2 * S k) with (S (S (2 * k))) by lia.
      replace (S (S (2 * k)) + 1) with (S (S (2 * k + 1))) by lia.
      done.
Qed.


(** A run that fails does so because its last call raised. *)
Lemma exec_throws ps w t err w' :
  exec this ps w t (Throws err) w' ->
  exists e ev,
    err = Raised e /\ last t = Some ev /\ failure_of ev = Some e /\
    w' = after_of ev.
Proof.
  remember (Throws err) as out eqn:Hout.
  induction 1 as [| | |p ps w r w1 w2 t out w' Hl He Hrest IH].
  - discriminate Hout.
  - injection Hout as <-. by eexists _, _.
  - injection Hout as <-. by eexists _, _.
  - destruct (IH Hout) as (e & ev & -> & Hlast & Hfail & ->).
    exists e, ev. repeat split; try done.
    destruct t; [discriminate Hlast | exact Hlast].
Qed.

(** If no call of a run raised, the run returned. *)
Lemma exec_no_failure ps w t out w' :
  exec this ps w t out w' ->
  (forall ev, ev ∈ t -> failure_of ev = None) ->
  out = Returns tt.
Proof.
  induction 1 as [| | |p ps w r w1 w2 t out w' Hl He Hrest IH]; intros Hnone.
  - done.
  - specialize (Hnone _ (list_elem_of_here _ _)). discriminate Hnone.
  - specialize (Hnone _ (list_elem_of_further _ _ _ (list_elem_of_here _ _))).
    discriminate Hnone.
  - apply IH. intros ev Hev. apply Hnone. by do 2 apply list_elem_of_further.
Qed.

(** Against externals that never raise, every run returns. *)
Lemma exec_never_raises ps w t out w' :
  (forall name, never_raises (GetRegistrarForPlugin this name)) ->
  (forall p r, never_raises (entry_point p r)) ->
  exec this ps w t out w' ->
  out = Returns tt.
Proof.
  intros Hlookup Hentry.
  induction 1 as [|p ps w e w1 Hl|p ps w r w1 e w2 Hl He|]; try done.
  - destruct (Hlookup (plugin_name p) w) as (? & ? & Heq). congruence.
  - destruct (Hentry p r w1) as (? & ? & Heq). congruence.
Qed.

(** Every registration call is the entry point applied, in the world the
    lookup of its plugin's name has just left, to the handle that lookup
    returned. *)
Lemma exec_registration_at ps w t out w' j p r v a v' :
  exec this ps w t out w' ->
  t !! j = Some (RegistrationCall p r v a v') ->
  entry_point p r v = (a, v') /\
  exists i v0,
    j = S i /\
    t !! i = Some (LookupCall (plugin_name p) v0 (inr r) v) /\
    GetRegistrarForPlugin this (plugin_name p) v0 = (inr r, v).
Proof.
  intros Hexec. revert j.
  induction Hexec as [| | |q ps w r0 w1 w2 t out w' Hl He Hrest IH];
    intros j Hj.
  - by destruct j.
  - destruct j as [|j]; cbn in Hj; [discriminate Hj | by destruct j].
  - destruct j as [|[|j]]; cbn in Hj.
    + discriminate Hj.
    + simplify_eq. split; [done|]. by exists 0, w.
    + by destruct j.
  - destruct j as [|[|j]]; cbn in Hj.
    + discriminate Hj.
    + simplify_eq. split; [done|]. by exists 0, w.
    + destruct (IH j Hj) as (Happlied & i & v0 & -> & Hi & Hissued).
      split; [done|]. by exists (S (S i)), v0.
Qed.

(** Every handle a lookup returned goes, in the very next call and in the
    world the lookup left, to the entry point of the plugin whose name was
    looked up. *)
Lemma exec_returned_lookup_at ps w t out w' i name v0 r v :
  exec this ps w t out w' ->
  t !! i = Some (LookupCall name v0 (inr r) v) ->
  exists p a v',
    plugin_name p = name /\
    t !! S i = Some (RegistrationCall p r v a v') /\
    entry_point p r v = (a, v').
Proof.
  intros Hexec. revert i.
  induction Hexec as [| | |q ps w r0 w1 w2 t out w' Hl He Hrest IH];
    intros i Hi.
  - by destruct i.
  - destruct i as [|i]; cbn in Hi; [discriminate Hi | by destruct i].
  - destruct i as [|[|i]]; cbn in Hi.
    + simplify_eq. by eexists _, _, _.
    + discriminate Hi.
    + by destruct i.
  - destruct i as [|[|i]]; cbn in Hi.
    + simplify_eq. by eexists _, _, _.
    + discriminate Hi.
    + destruct (IH i Hi) as (p & a & v' & Hname & Hnext & Happlied).
      by exists p, a, v'.
Qed.

End Executions.

(** ** The eight names *)

Lemma plugin_names_increasing :
  StronglySorted name_lt (plugin_name <$> all_plugins).
Proof. repeat constructor. Qed.

Lemma name_lt_irrefl a : ~ name_lt a a.
Proof.
  unfold name_lt, String.ltb. intros H.
  destruct (String.compare a a) eqn:Hcmp; try discriminate H.
  pose proof (String.compare_antisym a a) as Hanti.
  rewrite Hcmp in Hanti. discriminate Hanti.
Qed.

Lemma increasing_NoDup (names : list string) :
  StronglySorted name_lt names -> NoDup names.
Proof.
  induction 1 as [|a names Hsorted IH Hall]; constructor; [|done].
  intros Hin. rewrite Forall_forall in Hall.
  exact (name_lt_irrefl a (Hall a Hin)).
Qed.

Lemma increasing_prefix (names names' : list string) :
  names `prefix_of` names' ->
  StronglySorted name_lt names' -> StronglySorted name_lt names.
Proof. intros [k ->]. apply StronglySorted_app_1_l. Qed.

Lemma all_plugins_NoDup : NoDup all_plugins.
Proof.
  apply (NoDup_fmap_1 plugin_name), increasing_NoDup, plugin_names_increasing.
Qed.

Lemma NoDup_prefix {A} (l l' : list A) :
  l `prefix_of` l' -> NoDup l' -> NoDup l.
Proof. intros [k ->]. rewrite NoDup_app. tauto. Qed.

Lemma lookup_names_prefix (t t' : Calls) :
  t `prefix_of` t' -> lookup_names t `prefix_of` lookup_names t'.
Proof. intros [k ->]. unfold lookup_names. rewrite omap_app. by eexists. Qed.

Lemma registered_prefix (t t' : Calls) :
  t `prefix_of` t' -> registered t `prefix_of` registered t'.
Proof. intros [k ->]. unfold registered. rewrite omap_app. by eexists. Qed.

(** A part of the world that no call of a chain changes is the same at
    both ends of the chain. *)
Lemma chained_component {A} (component : World -> A) (t : Calls) w w' :
  chained w t w' ->
  (forall ev, ev ∈ t -> component (after_of ev) = component (before_of ev)) ->
  component w' = component w.
Proof.
  revert w. induction t as [|ev t IH]; cbn; intros w.
  - by intros ->.
  - intros [<- Hrest] Hsame.
    rewrite (IH _ Hrest).
    + apply Hsame, list_elem_of_here.
    + intros ev' Hev'. by apply Hsame, list_elem_of_further.
Qed.

(** The names a run looks up, whatever the registry argument. *)
Lemma RegisterPlugins_lookup_names_prefix registry w :
  lookup_names (trace (RegisterPlugins entry_point registry w))
    `prefix_of` (plugin_name <$> all_plugins).
Proof.
  destruct (RegisterPlugins_cases registry w)
    as [(-> & _ & _ & Htrace) | (this & -> & Hexec)].
  - rewrite Htrace. apply prefix_nil.
  - by eapply exec_lookup_names_prefix.
Qed.

Lemma RegisterPlugins_returns_lookup_names registry w :
  result (RegisterPlugins entry_point registry w) = Returns tt ->
  lookup_names (trace (RegisterPlugins entry_point registry w))
  = plugin_name <$> all_plugins.
Proof.
  intros Hres.
  destruct (RegisterPlugins_cases registry w)
    as [(-> & Hnull & _) | (this & -> & Hexec)]; [discriminate Hres|].
  rewrite Hres in Hexec.
  by destruct (exec_returns _ _ _ _ _ Hexec) as (_ & -> & _).
Qed.

(** On a registry that is there, against externals that never raise, the
    run returns. *)
Lemma RegisterPlugins_returns this w :
  (forall name, never_raises (GetRegistrarForPlugin this name)) ->
  (forall p r, never_raises (entry_point p r)) ->
  result (RegisterPlugins entry_point (ptr this) w) = Returns tt.
Proof.
  intros Hlookup Hentry.
  eapply exec_never_raises; [exact Hlookup | exact Hentry |].
  apply RegisterPlugins_exec.
Qed.

(** The calls of a run are really made, one after the other. *)
Lemma RegisterPlugins_performed registry w :
  Forall (performed entry_point registry)
    (trace (RegisterPlugins entry_point registry w)).
Proof.
  destruct (RegisterPlugins_cases registry w)
    as [(-> & _ & _ & Htrace) | (this & -> & Hexec)].
  - rewrite Htrace. constructor.
  - by eapply exec_performed.
Qed.

Lemma RegisterPlugins_chained registry w :
  chained w (trace (RegisterPlugins entry_point registry w))
    (final (RegisterPlugins entry_point registry w)).
Proof.
  destruct (RegisterPlugins_cases registry w)
    as [(-> & _ & Hfinal & Htrace) | (this & -> & Hexec)].
  - by rewrite Htrace, Hfinal.
  - by eapply exec_chained.
Qed.

(** ** What the specification says about [RegisterPlugins] *)

(** C1.  The registration calls of a run are made in the textual order of
    the file.  Whatever the registry argument and the world, the entry
    points entered are an initial segment of the fixed list of eight: none
    is skipped, reordered or repeated.  Every call recorded is really
    made: its answer and the world it leaves are the registry's or the
    entry point's own, and each call starts in the world the previous one
    left.  A run that is not cut short by a failure has entered exactly
    the eight, in that order; and on every registry that is there and,
    like the entry points, never raises, the run is not cut short. *)
Theorem RegisterPlugins_registers_in_order
    (registry : pointer Registry) (this : Registry) (w : World) :
  let eight :=
    [ FileSelectorWindows; FlutterSecureStorageWindowsPlugin;
      FlutterTimezonePluginCApi; MediaKitVideoPluginCApi;
      PermissionHandlerWindowsPlugin; SimpleAnimationProgressBarPluginCApi;
      UrlLauncherWindows; VolumeControllerPluginCApi ] in
  let run := RegisterPlugins entry_point registry w in
  let run' := RegisterPlugins entry_point (ptr this) w in
  (registered (trace run) `prefix_of` eight /\
   Forall (performed entry_point registry) (trace run) /\
   chained w (trace run) (final run)) /\
  (result run = Returns tt -> registered (trace run) = eight) /\
  ((forall name, never_raises (GetRegistrarForPlugin this name)) ->
   (forall p r, never_raises (entry_point p r)) ->
   result run' = Returns tt /\ registered (trace run') = eight).
Proof.
  intros eight run run'. subst run run'.
  assert (Hreturns : forall registry',
    result (RegisterPlugins entry_point registry' w) = Returns tt ->
    registered (trace (RegisterPlugins entry_point registry' w)) = eight).
  { intros registry' Hres.
    destruct (RegisterPlugins_cases registry' w)
      as [(-> & Hnull & _) | (this' & -> & Hexec)]; [discriminate Hres|].
    rewrite Hres in Hexec.
    by destruct (exec_returns _ _ _ _ _ Hexec) as (-> & _). }
  split_and!.
  - destruct (RegisterPlugins_cases registry w)
      as [(-> & _ & _ & Htrace) | (this' & -> & Hexec)].
    + rewrite Htrace. apply prefix_nil.
    + by eapply exec_registered_prefix.
  - apply RegisterPlugins_performed.
  - apply RegisterPlugins_chained.
  - apply Hreturns.
  - intros Hlookup Hentry.
    pose proof (RegisterPlugins_returns this w Hlookup Hentry) as Hres.
    split; [exact Hres | by apply Hreturns].
Qed.

(** C2.  In every run, a registration call is the entry point applied to
    exactly the handle that the registry returned for that plugin's name
    in the call just before, in the world that lookup left; conversely
    every handle a lookup returned is the argument of the very next call,
    the entry point of the plugin so named, and of no other call.  In a
    run that returns, plugin number [k] of the file has its lookup at
    position [2k] of the trace and its registration, on the handle
    returned there, at position [2k+1].  The calls follow one another
    from the initial world to the final one.  (The handle type is a
    parameter of the embedding: the function cannot look inside one.) *)
Theorem RegisterPlugins_forwards_handles
    (registry : pointer Registry) (w : World) :
  let run := RegisterPlugins entry_point registry w in
  (forall j p r v a v',
     trace run !! j = Some (RegistrationCall p r v a v') ->
     entry_point p r v = (a, v') /\
     exists this i v0,
       registry = ptr this /\ j = S i /\
       trace run !! i = Some (LookupCall (plugin_name p) v0 (inr r) v) /\
       GetRegistrarForPlugin this (plugin_name p) v0 = (inr r, v)) /\
  (forall i name v0 r v,
     trace run !! i = Some (LookupCall name v0 (inr r) v) ->
     exists p a v',
       plugin_name p = name /\
       trace run !! S i = Some (RegistrationCall p r v a v') /\
       entry_point p r v = (a, v')) /\
  (result run = Returns tt ->
   forall k p, all_plugins !! k = Some p ->
     exists this r w1 w2 w3,
       registry = ptr this /\
       trace run !! (2 * k) = Some (LookupCall (plugin_name p) w1 (inr r) w2) /\
       GetRegistrarForPlugin this (plugin_name p) w1 = (inr r, w2) /\
       trace run !! (2 * k + 1)
       = Some (RegistrationCall p r w2 (inr tt) w3) /\
       entry_point p r w2 = (inr tt, w3)) /\
  chained w (trace run) (final run).
Proof.
  intros run. subst run. split_and!.
  - destruct (RegisterPlugins_cases registry w)
      as [(-> & _ & _ & Htrace) | (this & -> & Hexec)].
    + rewrite Htrace. intros j ? ? ? ? ? Hj. by destruct j.
    + intros j p r v a v' Hj.
      destruct (exec_registration_at _ _ _ _ _ _ _ _ _ _ _ _ Hexec Hj)
        as (Happlied & i & v0 & ? & ? & ?).
      split; [done|]. by exists this, i, v0.
  - destruct (RegisterPlugins_cases registry w)
      as [(-> & _ & _ & Htrace) | (this & -> & Hexec)].
    + rewrite Htrace. intros i ? ? ? ? Hi. by destruct i.
    + intros i name v0 r v. by eapply exec_returned_lookup_at.
  - intros Hres k p Hk.
    destruct (RegisterPlugins_cases registry w)
      as [(-> & Hnull & _) | (this & -> & Hexec)]; [discriminate Hres|].
    rewrite Hres in Hexec.
    destruct (exec_plugin_at _ _ _ _ _ _ _ Hexec Hk)
      as (r & w1 & w2 & w3 & ? & ? & ? & ?).
    by exists this, r, w1, w2, w3.
  - apply RegisterPlugins_chained.
Qed.

(** C3.  At no point of a run (that is, in no initial segment of its
    trace) has a name been looked up twice or an entry point been entered
    twice.  The calls are really made and one after the other: each has
    the answer and leaves the world that the registry or the entry point
    gives, and each starts in the world the previous one left.  In a run
    that returns, each of the eight entry points has been entered exactly
    once and each of the eight names looked up exactly once; and on a
    registry that is there and, like the entry points, never raises, the
    run returns. *)
Theorem RegisterPlugins_never_repeats
    (registry : pointer Registry) (this : Registry) (w : World) :
  let run := RegisterPlugins entry_point registry w in
  let run' := RegisterPlugins entry_point (ptr this) w in
  (forall t', t' `prefix_of` trace run ->
     NoDup (lookup_names t') /\ NoDup (registered t')) /\
  (Forall (performed entry_point registry) (trace run) /\
   chained w (trace run) (final run)) /\
  (result run = Returns tt ->
   forall p,
     count_occ Plugin_eq_dec (registered (trace run)) p = 1 /\
     count_occ String.eq_dec (lookup_names (trace run)) (plugin_name p) = 1) /\
  ((forall name, never_raises (GetRegistrarForPlugin this name)) ->
   (forall p r, never_raises (entry_point p r)) ->
   forall p,
     count_occ Plugin_eq_dec (registered (trace run')) p = 1 /\
     count_occ String.eq_dec (lookup_names (trace run')) (plugin_name p) = 1).
Proof.
  intros run run'. subst run run'.
  assert (Honce : forall registry',
    result (RegisterPlugins entry_point registry' w) = Returns tt ->
    forall p,
      count_occ Plugin_eq_dec
        (registered (trace (RegisterPlugins entry_point registry' w))) p = 1 /\
      count_occ String.eq_dec
        (lookup_names (trace (RegisterPlugins entry_point registry' w)))
        (plugin_name p) = 1).
  { intros registry' Hres p.
    destruct (RegisterPlugins_cases registry' w)
      as [(-> & Hnull & _) | (this' & -> & Hexec)]; [discriminate Hres|].
    rewrite Hres in Hexec.
    destruct (exec_returns _ _ _ _ _ Hexec) as (-> & -> & _).
    by destruct p. }
  split_and!.
  - intros t' Ht'.
    destruct (RegisterPlugins_cases registry w)
      as [(-> & _ & _ & Htrace) | (this' & -> & Hexec)].
    + rewrite Htrace in Ht'. apply prefix_nil_inv in Ht' as ->.
      split; constructor.
    + split.
      * eapply NoDup_prefix; [by apply lookup_names_prefix|].
        eapply NoDup_prefix; [by eapply exec_lookup_names_prefix|].
        apply increasing_NoDup, plugin_names_increasing.
      * eapply NoDup_prefix; [by apply registered_prefix|].
        eapply NoDup_prefix; [by eapply exec_registered_prefix|].
        apply all_plugins_NoDup.
  - apply RegisterPlugins_performed.
  - apply RegisterPlugins_chained.
  - apply Honce.
  - intros Hlookup Hentry. by apply Honce, RegisterPlugins_returns.
Qed.


(** C6.  The function has no state of its own.  The world a run leaves is
    the one reached by its external calls alone, each starting where the
    previous one stopped, the first in the initial world; so any part of
    the world that none of those calls changes is unchanged by the run. *)
Theorem RegisterPlugins_frame
    (registry : pointer Registry) (w : World) :
  let run := RegisterPlugins entry_point registry w in
  chained w (trace run) (final run) /\
  (forall (A : Type) (component : World -> A),
     (forall ev, ev ∈ trace run ->
        component (after_of ev) = component (before_of ev)) ->
     component (final run) = component w).
Proof.
  intros run. subst run.
  assert (Hchain : chained w (trace (RegisterPlugins entry_point registry w))
                     (final (RegisterPlugins entry_point registry w))).
  { destruct (RegisterPlugins_cases registry w)
      as [(-> & _ & Hfinal & Htrace) | (this & -> & Hexec)].
    - by rewrite Htrace, Hfinal.
    - by eapply exec_chained. }
  split; [exact Hchain|].
  intros A component. by apply chained_component.
Qed.

(** C7.  The names passed to [GetRegistrarForPlugin] in a run are in
    strictly increasing byte-wise lexicographic order, hence pairwise
    distinct; there are never more than eight of them, and exactly eight
    in a run that returns. *)
Theorem lookup_names_strictly_increasing
    (registry : pointer Registry) (w : World) :
  let run := RegisterPlugins entry_point registry w in
  StronglySorted name_lt (lookup_names (trace run)) /\
  NoDup (lookup_names (trace run)) /\
  length (lookup_names (trace run)) <= 8 /\
  (result run = Returns tt -> length (lookup_names (trace run)) = 8).
Proof.
  intros run. subst run.
  destruct (RegisterPlugins_cases registry w)
    as [(-> & Hres & _ & Htrace) | (this & -> & Hexec)].
  - rewrite Htrace, Hres. cbn. split_and!; try constructor.
    + lia.
    + discriminate.
  - pose proof (exec_lookup_names_prefix _ _ _ _ _ _ Hexec) as Hprefix.
    pose proof (increasing_prefix _ _ Hprefix plugin_names_increasing)
      as Hsorted.
    split_and!.
    + exact Hsorted.
    + by apply increasing_NoDup.
    + by apply prefix_length in Hprefix.
    + intros Hres. rewrite Hres in Hexec.
      by destruct (exec_returns _ _ _ _ _ Hexec) as (_ & -> & _).
Qed.

(** C8.  Every run ends, after at most sixteen external calls, each of
    them really made and each starting in the world the previous one
    left.  A run that returns has made exactly sixteen: for each of the
    eight plugins in turn, the lookup of its name and then, on the handle
    just returned, the call of its entry point.  And on a registry that is
    there, with a registry and entry points that never raise, the run
    does return, so it makes the sixteen calls. *)
Theorem RegisterPlugins_sixteen_calls
    (registry : pointer Registry) (this : Registry) (w : World) :
  let run := RegisterPlugins entry_point registry w in
  let run' := RegisterPlugins entry_point (ptr this) w in
  (length (trace run) <= 16 /\
   Forall (performed entry_point registry) (trace run) /\
   chained w (trace run) (final run)) /\
  (result run = Returns tt ->
   length (trace run) = 16 /\ lookup_then_register all_plugins (trace run)) /\
  ((forall name, never_raises (GetRegistrarForPlugin this name)) ->
   (forall p r, never_raises (entry_point p r)) ->
   result run' = Returns tt /\ length (trace run') = 16 /\
   lookup_then_register all_plugins (trace run')).
Proof.
  intros run run'. subst run run'.
  assert (Hreturns : forall registry',
    let run := RegisterPlugins entry_point registry' w in
    result run = Returns tt ->
    length (trace run) = 16 /\ lookup_then_register all_plugins (trace run)).
  { intros registry' run Hres. subst run.
    destruct (RegisterPlugins_cases registry' w)
      as [(-> & Hnull & _) | (this' & -> & Hexec)]; [discriminate Hres|].
    rewrite Hres in Hexec.
    by destruct (exec_returns _ _ _ _ _ Hexec) as (_ & _ & -> & ?). }
  split_and!.
  - destruct (RegisterPlugins_cases registry w)
      as [(-> & _ & _ & Htrace) | (this' & -> & Hexec)].
    + rewrite Htrace. cbn. lia.
    + by apply exec_length_le in Hexec.
  - apply RegisterPlugins_performed.
  - apply RegisterPlugins_chained.
  - apply Hreturns.
  - intros Hlookup Hentry.
    pose proof (RegisterPlugins_returns this w Hlookup Hentry) as Hres.
    split; [exact Hres | by apply Hreturns].
Qed.

(** C9.  The registry pointer is dereferenced unguarded: on a null
    registry the run fails at once on the dereference, before any external
    call and with the world untouched.  On a non-null registry the
    dereference never fails: the run does not end in a null dereference, a
    failure of the run can only be one that its last external call raised,
    and if no external call raises the run returns. *)
Theorem RegisterPlugins_null_dereference (this : Registry) (w : World) :
  let run := RegisterPlugins entry_point (ptr this) w in
  RegisterPlugins entry_point nullptr w
  = {| result := Throws NullDereference; final := w; trace := [] |} /\
  result run <> Throws NullDereference /\
  (forall err,
     result run = Throws err ->
     exists e ev,
       err = Raised e /\ last (trace run) = Some ev /\
       failure_of ev = Some e) /\
  ((forall ev, ev ∈ trace run -> failure_of ev = None) ->
   result run = Returns tt).
Proof.
  intros run. subst run.
  pose proof (RegisterPlugins_exec this w) as Hexec.
  split_and!.
  - reflexivity.
  - intros Hres. rewrite Hres in Hexec.
    by destruct (exec_throws _ _ _ _ _ _ Hexec) as (? & ? & ? & _).
  - intros err Hres. rewrite Hres in Hexec.
    destruct (exec_throws _ _ _ _ _ _ Hexec) as (e & ev & ? & ? & ? & _).
    by exists e, ev.
  - by eapply exec_no_failure.
Qed.

End Properties.

(** C5.  The lookups of a run depend on the host only in how far the run
    gets.  Take any two runs, with different registry arguments, entry
    points, initial worlds, and even different types of world, handle and
    failure: the names each looks up are an initial segment of one fixed
    list of eight constants, each lookup being really made on the registry
    of its run, so the two sequences agree as far as both go; and when
    both runs return they are the same sequence, the eight names of the
    file. *)
Theorem lookup_sequence_is_fixed
    {W1 R1 F1 W2 R2 F2 : Type}
    (entry1 : Plugin -> R1 -> external W1 F1 unit)
    (entry2 : Plugin -> R2 -> external W2 F2 unit)
    (registry1 : pointer (PluginRegistry W1 R1 F1))
    (registry2 : pointer (PluginRegistry W2 R2 F2))
    (w1 : W1) (w2 : W2) :
  let fixed :=
    [ "FileSelectorWindows"; "FlutterSecureStorageWindowsPlugin";
      "FlutterTimezonePluginCApi"; "MediaKitVideoPluginCApi";
      "PermissionHandlerWindowsPlugin";
      "SimpleAnimationProgressBarPluginCApi";
      "UrlLauncherWindows"; "VolumeControllerPluginCApi" ] in
  let run1 := RegisterPlugins entry1 registry1 w1 in
  let run2 := RegisterPlugins entry2 registry2 w2 in
  (lookup_names (trace run1) `prefix_of` fixed /\
   Forall (performed entry1 registry1) (trace run1)) /\
  (lookup_names (trace run2) `prefix_of` fixed /\
   Forall (performed entry2 registry2) (trace run2)) /\
  (lookup_names (trace run1) `prefix_of` lookup_names (trace run2) \/
   lookup_names (trace run2) `prefix_of` lookup_names (trace run1)) /\
  (result run1 = Returns tt -> result run2 = Returns tt ->
   lookup_names (trace run1) = fixed /\
   lookup_names (trace run2) = fixed /\
   lookup_names (trace run1) = lookup_names (trace run2)).
Proof.
  intros fixed run1 run2.
  pose proof (RegisterPlugins_lookup_names_prefix entry1 registry1 w1)
    as Hprefix1.
  pose proof (RegisterPlugins_lookup_names_prefix entry2 registry2 w2)
    as Hprefix2.
  split_and!.
  - exact Hprefix1.
  - apply RegisterPlugins_performed.
  - exact Hprefix2.
  - apply RegisterPlugins_performed.
  - by eapply prefix_weak_total.
  - intros Hres1 Hres2.
    apply RegisterPlugins_returns_lookup_names in Hres1.
    apply RegisterPlugins_returns_lookup_names in Hres2.
    subst run1 run2. by rewrite Hres1, Hres2.
Qed.

(** ** The statements at concrete hosts *)

(** Three runs, evaluated. *)
Example run_on_null_registry :
  RegisterPlugins Sample.entry nullptr (0, 7)
  = {| result := Throws NullDereference; final := (0, 7); trace := [] |}.
Proof. reflexivity. Qed.

Example run_on_quiet_host :
  let run := RegisterPlugins Sample.entry (ptr Sample.quiet) (0, 7) in
  result run = Returns tt /\ final run = (16, 7) /\
  lookup_names (trace run)
  = [ "FileSelectorWindows"; "FlutterSecureStorageWindowsPlugin";
      "FlutterTimezonePluginCApi"; "MediaKitVideoPluginCApi";
      "PermissionHandlerWindowsPlugin";
      "SimpleAnimationProgressBarPluginCApi";
      "UrlLauncherWindows"; "VolumeControllerPluginCApi" ].
Proof. repeat split. Qed.

Example run_on_unknown_plugin :
  let run := RegisterPlugins Sample.entry (ptr Sample.picky) (0, 7) in
  result run = Throws (Raised "unknown plugin") /\ final run = (13, 7) /\
  length (trace run) = 13 /\
  last (trace run)
  = Some (LookupCall "UrlLauncherWindows"
            (12, 7) (inl "unknown plugin") (13, 7)).
Proof. repeat split. Qed.

(** The registration order on the host whose calls all succeed: nothing
    raises there, the run returns, the eight entry points are entered in
    the order of the file, and the sixteen calls have moved the counter
    from 0 to 16. *)
Lemma RegisterPlugins_registers_in_order_witness :
  let this := Sample.quiet in
  let run := RegisterPlugins Sample.entry (ptr this) (0, 7) in
  (forall name, never_raises (GetRegistrarForPlugin this name)) /\
  (forall p r, never_raises (Sample.entry p r)) /\
  result run = Returns tt /\
  registered (trace run)
  = [ FileSelectorWindows; FlutterSecureStorageWindowsPlugin;
      FlutterTimezonePluginCApi; MediaKitVideoPluginCApi;
      PermissionHandlerWindowsPlugin; SimpleAnimationProgressBarPluginCApi;
      UrlLauncherWindows; VolumeControllerPluginCApi ] /\
  Forall (performed Sample.entry (ptr this)) (trace run) /\
  chained (0, 7) (trace run) (final run) /\
  final run = (16, 7).
Proof.
  intros this run.
  assert (Hlookup : forall name, never_raises (GetRegistrarForPlugin this name))
    by (intros name w; eexists _, _; reflexivity).
  assert (Hentry : forall p r, never_raises (Sample.entry p r))
    by (intros p r w; eexists _, _; reflexivity).
  assert (Hfinal : final run = (16, 7)) by reflexivity.
  destruct (RegisterPlugins_registers_in_order
              Sample.entry (ptr this) this (0, 7))
    as ((_ & Hmade & Hchain) & _ & Hquiet).
  destruct (Hquiet Hlookup Hentry) as (Hres & Height).
  exact (conj Hlookup (conj Hentry (conj Hres (conj Height
           (conj Hmade (conj Hchain Hfinal)))))).
Defined.

(** Not every registry argument gets eight registration calls: a null
    registry gets none, and on the registry that does not know the URL
    launcher the run stops after six. *)
Lemma eight_registrations_counterexample :
  registered (trace (RegisterPlugins Sample.entry nullptr (0, 7))) = [] /\
  registered (trace (RegisterPlugins Sample.entry (ptr Sample.picky) (0, 7)))
  = [ FileSelectorWindows; FlutterSecureStorageWindowsPlugin;
      FlutterTimezonePluginCApi; MediaKitVideoPluginCApi;
      PermissionHandlerWindowsPlugin; SimpleAnimationProgressBarPluginCApi ] /\
  ~ (forall registry : pointer (PluginRegistry Sample.world nat string),
       registered (trace (RegisterPlugins Sample.entry registry (0, 7)))
       = all_plugins).
Proof.
  split_and!; [reflexivity | reflexivity |].
  intros Hall. specialize (Hall nullptr). discriminate Hall.
Qed.

(** Handle forwarding on the same host: the second call of the run is the
    file selector's entry point applied to the handle 19 in the world
    (1, 7), and the first call is the lookup that returned 19 and left
    that world; the last plugin of the file is served by the calls at
    positions 14 and 15; the run leaves the counter at 16. *)
Lemma RegisterPlugins_forwards_handles_witness :
  let registry := ptr Sample.quiet in
  let run := RegisterPlugins Sample.entry registry (0, 7) in
  (trace run !! 1
   = Some (RegistrationCall FileSelectorWindows 19 (1, 7) (inr tt) (2, 7)) /\
   Sample.entry FileSelectorWindows 19 (1, 7) = (inr tt, (2, 7)) /\
   exists this i v0,
     registry = ptr this /\ 1 = S i /\
     trace run !! i
     = Some (LookupCall "FileSelectorWindows" v0 (inr 19) (1, 7)) /\
     GetRegistrarForPlugin this "FileSelectorWindows" v0 = (inr 19, (1, 7))) /\
  (trace run !! 0
   = Some (LookupCall "FileSelectorWindows" (0, 7) (inr 19) (1, 7)) /\
   exists p a v',
     plugin_name p = "FileSelectorWindows" /\
     trace run !! 1 = Some (RegistrationCall p 19 (1, 7) a v') /\
     Sample.entry p 19 (1, 7) = (a, v')) /\
  (result run = Returns tt /\
   all_plugins !! 7 = Some VolumeControllerPluginCApi /\
   exists this r w1 w2 w3,
     registry = ptr this /\
     trace run !! 14
     = Some (LookupCall "VolumeControllerPluginCApi" w1 (inr r) w2) /\
     GetRegistrarForPlugin this "VolumeControllerPluginCApi" w1
     = (inr r, w2) /\
     trace run !! 15
     = Some (RegistrationCall VolumeControllerPluginCApi r w2 (inr tt) w3) /\
     Sample.entry VolumeControllerPluginCApi r w2 = (inr tt, w3)) /\
  chained (0, 7) (trace run) (final run) /\
  final run = (16, 7).
Proof.
  intros registry run.
  destruct (RegisterPlugins_forwards_handles Sample.entry registry (0, 7))
    as (Hbefore & Hafter & Hall & Hchain).
  assert (Hreg : trace run !! 1
    = Some (RegistrationCall FileSelectorWindows 19 (1, 7) (inr tt) (2, 7)))
    by reflexivity.
  assert (Hget : trace run !! 0
    = Some (LookupCall "FileSelectorWindows" (0, 7) (inr 19) (1, 7)))
    by reflexivity.
  assert (Hres : result run = Returns tt) by reflexivity.
  assert (Hlast : all_plugins !! 7 = Some VolumeControllerPluginCApi)
    by reflexivity.
  assert (Hfinal : final run = (16, 7)) by reflexivity.
  destruct (Hbefore 1 _ _ _ _ _ Hreg) as (Happlied & Hissued).
  exact (conj (conj Hreg (conj Happlied Hissued))
          (conj (conj Hget (Hafter 0 _ _ _ _ Hget))
            (conj (conj Hres (conj Hlast (Hall Hres 7 _ Hlast)))
              (conj Hchain Hfinal)))).
Defined.

(** Repetition on the same host, at the point where three calls have
    been made, and at the end of the run: nothing raises, every entry
    point has been entered once, and the calls have moved the counter
    from 0 to 16. *)
Lemma RegisterPlugins_never_repeats_witness :
  let this := Sample.quiet in
  let run := RegisterPlugins Sample.entry (ptr this) (0, 7) in
  take 3 (trace run) `prefix_of` trace run /\
  NoDup (lookup_names (take 3 (trace run))) /\
  NoDup (registered (take 3 (trace run))) /\
  (forall name, never_raises (GetRegistrarForPlugin this name)) /\
  (forall p r, never_raises (Sample.entry p r)) /\
  result run = Returns tt /\
  count_occ Plugin_eq_dec (registered (trace run)) UrlLauncherWindows = 1 /\
  count_occ String.eq_dec (lookup_names (trace run)) "UrlLauncherWindows" = 1 /\
  Forall (performed Sample.entry (ptr this)) (trace run) /\
  chained (0, 7) (trace run) (final run) /\
  final run = (16, 7).
Proof.
  intros this run.
  destruct (RegisterPlugins_never_repeats Sample.entry (ptr this) this (0, 7))
    as (Hnever & (Hmade & Hchain) & Honce & Hquiet).
  assert (Hprefix : take 3 (trace run) `prefix_of` trace run)
    by (exists (drop 3 (trace run)); reflexivity).
  assert (Hlookup : forall name, never_raises (GetRegistrarForPlugin this name))
    by (intros name w; eexists _, _; reflexivity).
  assert (Hentry : forall p r, never_raises (Sample.entry p r))
    by (intros p r w; eexists _, _; reflexivity).
  assert (Hres : result run = Returns tt) by reflexivity.
  assert (Hfinal : final run = (16, 7)) by reflexivity.
  pose proof (Honce Hres UrlLauncherWindows) as Hreturned.
  pose proof (Hquiet Hlookup Hentry UrlLauncherWindows) as Hcounted.
  exact (conj Hprefix (conj (proj1 (Hnever _ Hprefix))
          (conj (proj2 (Hnever _ Hprefix))
            (conj Hlookup (conj Hentry (conj Hres
              (conj (proj1 Hcounted) (conj (proj2 Hreturned)
                (conj Hmade (conj Hchain Hfinal)))))))))).
Defined.

(** Not every run enters each entry point exactly once: on the registry
    that does not know the URL launcher, the volume controller's entry
    point is not entered at all, and on a null registry none is. *)
Lemma exactly_once_counterexample :
  let picky := RegisterPlugins Sample.entry (ptr Sample.picky) (0, 7) in
  let null := RegisterPlugins Sample.entry nullptr (0, 7) in
  count_occ Plugin_eq_dec
    (registered (trace picky)) VolumeControllerPluginCApi = 0 /\
  count_occ Plugin_eq_dec (registered (trace null)) FileSelectorWindows = 0 /\
  ~ (forall (registry : pointer (PluginRegistry Sample.world nat string)) p,
       count_occ Plugin_eq_dec
         (registered (trace (RegisterPlugins Sample.entry registry (0, 7)))) p
       = 1).
Proof.
  intros picky null. split_and!; [reflexivity | reflexivity |].
  intros Hall. specialize (Hall nullptr FileSelectorWindows).
  discriminate Hall.
Qed.


(** The lookup sequence on two hosts that differ in their entry points
    and initial world, both of whose runs return. *)
Lemma lookup_sequence_is_fixed_witness :
  let registry := ptr Sample.quiet in
  let run1 := RegisterPlugins Sample.entry registry (0, 7) in
  let run2 :=
    RegisterPlugins (fun p r w => (inr tt, (w.1 + r, w.2))) registry (40, 2) in
  result run1 = Returns tt /\ result run2 = Returns tt /\
  lookup_names (trace run1) = lookup_names (trace run2) /\
  Forall (performed Sample.entry registry) (trace run1) /\
  final run1 = (16, 7).
Proof.
  intros registry run1 run2.
  assert (Hres1 : result run1 = Returns tt) by reflexivity.
  assert (Hres2 : result run2 = Returns tt) by reflexivity.
  assert (Hfinal : final run1 = (16, 7)) by reflexivity.
  destruct (lookup_sequence_is_fixed
              Sample.entry (fun p r w => (inr tt, (w.1 + r, w.2)))
              registry registry (0, 7) (40, 2))
    as ((_ & Hmade) & _ & _ & Hsame).
  exact (conj Hres1 (conj Hres2
           (conj (proj2 (proj2 (Hsame Hres1 Hres2))) (conj Hmade Hfinal)))).
Defined.

(** Two registry arguments need not see the same lookups: with the same
    entry points and initial world, the null registry sees none, the
    registry that does not know the URL launcher seven, the sample
    registry all eight. *)
Lemma same_lookup_sequence_counterexample :
  let names :=
    fun registry : pointer (PluginRegistry Sample.world nat string) =>
      lookup_names (trace (RegisterPlugins Sample.entry registry (0, 7))) in
  length (names nullptr) = 0 /\
  length (names (ptr Sample.picky)) = 7 /\
  length (names (ptr Sample.quiet)) = 8 /\
  names (ptr Sample.picky) <> names (ptr Sample.quiet) /\
  ~ (forall registry1 registry2, names registry1 = names registry2).
Proof.
  intros names.
  split_and!; [reflexivity | reflexivity | reflexivity | discriminate |].
  intros Hall. specialize (Hall nullptr (ptr Sample.quiet)).
  discriminate Hall.
Qed.

(** The frame on the host whose video plugin raises: no call touches the
    second component of the world, and the run leaves it at 7. *)
Lemma RegisterPlugins_frame_witness :
  let registry := ptr Sample.quiet in
  let run := RegisterPlugins Sample.picky_entry registry (0, 7) in
  (forall ev, ev ∈ trace run -> (after_of ev).2 = (before_of ev).2) /\
  (final run).2 = 7.
Proof.
  intros registry run.
  assert (Huntouched :
    forall ev, ev ∈ trace run -> (after_of ev).2 = (before_of ev).2).
  { apply Forall_forall. repeat constructor. }
  split; [exact Huntouched|].
  exact (proj2 (RegisterPlugins_frame Sample.picky_entry registry (0, 7))
           nat snd Huntouched).
Defined.

(** The order of names on the host whose calls all succeed: eight names
    are looked up. *)
Lemma lookup_names_strictly_increasing_witness :
  let registry := ptr Sample.quiet in
  let run := RegisterPlugins Sample.entry registry (0, 7) in
  result run = Returns tt /\ length (lookup_names (trace run)) = 8.
Proof.
  intros registry run.
  assert (Hres : result run = Returns tt) by reflexivity.
  split; [exact Hres|].
  exact (proj2 (proj2 (proj2 (lookup_names_strictly_increasing
                                Sample.entry registry (0, 7)))) Hres).
Defined.

(** The call count on the host whose calls all succeed: neither the
    registry nor the entry points ever raise, so the run returns after
    sixteen calls, which have moved the counter from 0 to 16. *)
Lemma RegisterPlugins_sixteen_calls_witness :
  let this := Sample.quiet in
  let run := RegisterPlugins Sample.entry (ptr this) (0, 7) in
  (forall name, never_raises (GetRegistrarForPlugin this name)) /\
  (forall p r, never_raises (Sample.entry p r)) /\
  result run = Returns tt /\
  length (trace run) = 16 /\
  lookup_then_register all_plugins (trace run) /\
  Forall (performed Sample.entry (ptr this)) (trace run) /\
  chained (0, 7) (trace run) (final run) /\
  final run = (16, 7).
Proof.
  intros this run.
  assert (Hlookup : forall name, never_raises (GetRegistrarForPlugin this name))
    by (intros name w; eexists _, _; reflexivity).
  assert (Hentry : forall p r, never_raises (Sample.entry p r))
    by (intros p r w; eexists _, _; reflexivity).
  assert (Hfinal : final run = (16, 7)) by reflexivity.
  destruct (RegisterPlugins_sixteen_calls
              Sample.entry (ptr this) this (0, 7))
    as ((_ & Hmade & Hchain) & _ & Hquiet).
  destruct (Hquiet Hlookup Hentry) as (Hres & Hlen & Hpairs).
  exact (conj Hlookup (conj Hentry (conj Hres
           (conj Hlen (conj Hpairs
             (conj Hmade (conj Hchain Hfinal))))))).
Defined.

(** Not every registry argument gets sixteen calls, even with a registry
    and entry points that never raise: on a null registry the run ends at
    once, no external call made. *)
Lemma sixteen_calls_counterexample :
  (forall name, never_raises (GetRegistrarForPlugin Sample.quiet name)) /\
  (forall p r, never_raises (Sample.entry p r)) /\
  length (trace (RegisterPlugins Sample.entry nullptr (0, 7))) = 0 /\
  ~ (forall registry : pointer (PluginRegistry Sample.world nat string),
       length (trace (RegisterPlugins Sample.entry registry (0, 7))) = 16).
Proof.
  split_and!.
  - intros name w. by eexists _, _.
  - intros p r w. by eexists _, _.
  - reflexivity.
  - intros Hall. specialize (Hall nullptr). discriminate Hall.
Qed.

(** The dereference on the registry that does not know the URL launcher:
    the run fails with what that lookup raised, not with a null
    dereference; and on the host whose calls all succeed, no call raises
    and the run returns. *)
Lemma RegisterPlugins_null_dereference_witness :
  let failed := RegisterPlugins Sample.entry (ptr Sample.picky) (0, 7) in
  let run := RegisterPlugins Sample.entry (ptr Sample.quiet) (0, 7) in
  result failed = Throws (Raised "unknown plugin") /\
  (exists e ev,
     Raised "unknown plugin" = Raised e /\
     last (trace failed) = Some ev /\ failure_of ev = Some e) /\
  (forall ev, ev ∈ trace run -> failure_of ev = None) /\
  result run = Returns tt.
Proof.
  intros failed run.
  assert (Hfailed : result failed = Throws (Raised "unknown plugin"))
    by reflexivity.
  assert (Hnone : forall ev, ev ∈ trace run -> failure_of ev = None).
  { apply Forall_forall. repeat constructor. }
  destruct (RegisterPlugins_null_dereference Sample.entry Sample.picky (0, 7))
    as (_ & _ & Hfrom & _).
  destruct (RegisterPlugins_null_dereference Sample.entry Sample.quiet (0, 7))
    as (_ & _ & _ & Hquiet).
  exact (conj Hfailed (conj (Hfrom _ Hfailed) (conj Hnone (Hquiet Hnone)))).
Defined.

(** ** Further properties of [RegisterPlugins] *)

Section Further.

Context {World Registrar Failure : Type}.
Variable entry_point : Plugin -> Registrar -> external World Failure unit.

Local Abbreviation Registry' := (PluginRegistry World Registrar Failure).

Lemma Run_eq {A} (r1 r2 : Run World Registrar Failure A) :
  result r1 = result r2 -> final r1 = final r2 -> trace r1 = trace r2 ->
  r1 = r2.
Proof. destruct r1, r2. cbn. by intros -> -> ->. Qed.

(** Two answers recorded for the same external call are one answer. *)
Ltac same_call :=
  repeat match goal with
         | H1 : ?call = _, H2 : ?call = _ |- _ =>
             rewrite H1 in H2; injection H2 as ?; subst
         end.

(** The relation describes one run only. *)
Lemma exec_deterministic
    (entry : Plugin -> Registrar -> external World Failure unit)
    (this : Registry') ps w t1 out1 w1 t2 out2 w2 :
  exec entry this ps w t1 out1 w1 ->
  exec entry this ps w t2 out2 w2 ->
  t1 = t2 /\ out1 = out2 /\ w1 = w2.
Proof.
  intros H1. revert t2 out2 w2.
  induction H1 as [w|p ps w e v1 Hl|p ps w r v1 e v2 Hl He
                   |p ps w r v1 v2 t out w' Hl He Hrest IH];
    intros t2 out2 w2 H2; inversion H2; subst; same_call;
    try done; try discriminate.
  match goal with
  | H : exec _ _ _ _ _ _ _ |- _ => destruct (IH _ _ _ H) as (-> & -> & ->)
  end.
  done.
Qed.

(** An execution only asks the registry for names of the plugins run. *)
Lemma exec_agree (entry' : Plugin -> Registrar -> external World Failure unit)
    (this this' : Registry') ps w t out w' :
  (forall p v,
     GetRegistrarForPlugin this (plugin_name p) v
     = GetRegistrarForPlugin this' (plugin_name p) v) ->
  (forall p r v, entry_point p r v = entry' p r v) ->
  exec entry_point this ps w t out w' ->
  exec entry' this' ps w t out w'.
Proof.
  intros Hlookup Hentry.
  induction 1 as [w|p ps w e v1 Hl|p ps w r v1 e v2 Hl He
                  |p ps w r v1 v2 t out w' Hl He Hrest IH].
  - apply exec_done.
  - apply exec_lookup_raises. by rewrite <- Hlookup.
  - apply exec_entry_raises; [by rewrite <- Hlookup | by rewrite <- Hentry].
  - apply exec_next; [by rewrite <- Hlookup | by rewrite <- Hentry | done].
Qed.



(** What every external call of an execution keeps, the execution keeps. *)
Lemma exec_invariant (Inv : World -> Prop) (this : Registry') ps w t out w' :
  (forall p v, Inv v -> Inv (GetRegistrarForPlugin this (plugin_name p) v).2) ->
  (forall p r v, Inv v -> Inv (entry_point p r v).2) ->
  exec entry_point this ps w t out w' ->
  Inv w ->
  Inv w' /\ forall ev, ev ∈ t -> Inv (before_of ev) /\ Inv (after_of ev).
Proof.
  intros Hlookup Hentry.
  induction 1 as [w|p ps w e v1 Hl|p ps w r v1 e v2 Hl He
                  |p ps w r v1 v2 t out w' Hl He Hrest IH]; intros Hw.
  - split; [done|]. intros ev Hev. by apply elem_of_nil in Hev.
  - pose proof (Hlookup p w Hw) as H1. rewrite Hl in H1.
    split; [done|]. intros ev ->%list_elem_of_singleton. done.
  - pose proof (Hlookup p w Hw) as H1. rewrite Hl in H1. cbn in H1.
    pose proof (Hentry p r v1 H1) as H2. rewrite He in H2.
    split; [done|]. intros ev Hev.
    apply elem_of_cons in Hev as [->|Hev%list_elem_of_singleton]; by subst.
  - pose proof (Hlookup p w Hw) as H1. rewrite Hl in H1. cbn in H1.
    pose proof (Hentry p r v1 H1) as H2. rewrite He in H2. cbn in H2.
    destruct (IH H2) as (Hfinal & Hcalls).
    split; [done|]. intros ev Hev.
    apply elem_of_cons in Hev as [->|Hev]; [done|].
    apply elem_of_cons in Hev as [->|Hev]; [done|].
    by apply Hcalls.
Qed.

(** A registration call is given what the registry issued for that
    plugin's name. *)
Lemma exec_issued (P : Plugin -> Registrar -> Prop)
    (this : Registry') ps w t out w' :
  (forall p v r v',
     GetRegistrarForPlugin this (plugin_name p) v = (inr r, v') -> P p r) ->
  exec entry_point this ps w t out w' ->
  forall ev p r, ev ∈ t -> registration_of ev = Some (p, r) -> P p r.
Proof.
  intros Hissue.
  induction 1 as [w|p ps w e v1 Hl|p ps w r v1 e v2 Hl He
                  |p ps w r v1 v2 t out w' Hl He Hrest IH];
    intros ev q r' Hev Hreg.
  - by apply elem_of_nil in Hev.
  - apply list_elem_of_singleton in Hev as ->. discriminate Hreg.
  - apply elem_of_cons in Hev as [->|Hev%list_elem_of_singleton].
    + discriminate Hreg.
    + subst ev. cbn in Hreg. injection Hreg as <- <-. by eapply Hissue.
  - apply elem_of_cons in Hev as [->|Hev]; [discriminate Hreg|].
    apply elem_of_cons in Hev as [->|Hev].
    + cbn in Hreg. injection Hreg as <- <-. by eapply Hissue.
    + by eapply IH.
Qed.



(** X2.  The registry is consulted for the eight names of the file and for
    nothing else: two registries that answer alike on those eight names
    (and entry points that behave alike) give the same run, with the same
    outcome, final world and calls, however the registries differ on
    other names. *)
Theorem RegisterPlugins_consults_eight_names
    (entry' : Plugin -> Registrar -> external World Failure unit)
    (this this' : Registry') (w : World) :
  (forall p v,
     GetRegistrarForPlugin this (plugin_name p) v
     = GetRegistrarForPlugin this' (plugin_name p) v) ->
  (forall p r v, entry_point p r v = entry' p r v) ->
  RegisterPlugins entry_point (ptr this) w
  = RegisterPlugins entry' (ptr this') w.
Proof.
  intros Hlookup Hentry.
  pose proof (RegisterPlugins_exec entry_point this w) as Hexec.
  pose proof (RegisterPlugins_exec entry' this' w) as Hexec'.
  apply (exec_agree entry' this this' _ _ _ _ _ Hlookup Hentry) in Hexec.
  destruct (exec_deterministic _ _ _ _ _ _ _ _ _ _ Hexec Hexec')
    as (Htrace & Hresult & Hfinal).
  by apply Run_eq.
Qed.

(** X3.  A property of the world that every external call keeps, whether
    the call returns or raises, holds after the run if it held before,
    also when the run fails; and it holds before and after every call of
    the run. *)
Theorem RegisterPlugins_keeps_invariant
    (Inv : World -> Prop) (this : Registry') (w : World) :
  let run := RegisterPlugins entry_point (ptr this) w in
  (forall p v, Inv v -> Inv (GetRegistrarForPlugin this (plugin_name p) v).2) ->
  (forall p r v, Inv v -> Inv (entry_point p r v).2) ->
  Inv w ->
  Inv (final run) /\
  (forall ev, ev ∈ trace run -> Inv (before_of ev) /\ Inv (after_of ev)).
Proof.
  intros run Hlookup Hentry Hw. subst run.
  eapply exec_invariant; [exact Hlookup | exact Hentry | | exact Hw].
  apply RegisterPlugins_exec.
Qed.

(** X4.  An entry point is only ever given a registrar that the registry
    passed in issued for that plugin's own name: whatever holds of every
    handle the registry returns for the name of [p] holds of every
    argument the entry point of [p] is called with. *)
Theorem entry_points_get_issued_registrars
    (P : Plugin -> Registrar -> Prop) (this : Registry') (w : World) :
  (forall p v r v',
     GetRegistrarForPlugin this (plugin_name p) v = (inr r, v') -> P p r) ->
  forall ev p r,
    ev ∈ trace (RegisterPlugins entry_point (ptr this) w) ->
    registration_of ev = Some (p, r) ->
    P p r.
Proof.
  intros Hissue. eapply exec_issued; [exact Hissue|].
  apply RegisterPlugins_exec.
Qed.

(** A failure that ends an execution was raised by the registry or by an
    entry point. *)
Lemma exec_raised (Q : Failure -> Prop) (this : Registry') ps w t e w' :
  (forall p v e' v',
     GetRegistrarForPlugin this (plugin_name p) v = (inl e', v') -> Q e') ->
  (forall p r v e' v', entry_point p r v = (inl e', v') -> Q e') ->
  exec entry_point this ps w t (Throws (Raised e)) w' ->
  Q e.
Proof.
  intros Hlookup Hentry.
  remember (Throws (Raised e)) as out eqn:Hout.
  induction 1 as [w|p ps w e' v1 Hl|p ps w r v1 e' v2 Hl He
                  |p ps w r v1 v2 t out w' Hl He Hrest IH].
  - discriminate Hout.
  - injection Hout as ->. by eapply Hlookup.
  - injection Hout as ->. by eapply Hentry.
  - by apply IH.
Qed.

(** X5.  The function raises nothing of its own on a registry that is
    there: a failure that ends the run is one that the registry raised on
    one of the eight names or that an entry point raised, so whatever
    holds of all of those holds of it. *)
Theorem RegisterPlugins_raises_what_host_raised
    (Q : Failure -> Prop) (this : Registry') (w : World) (e : Failure) :
  (forall p v e' v',
     GetRegistrarForPlugin this (plugin_name p) v = (inl e', v') -> Q e') ->
  (forall p r v e' v', entry_point p r v = (inl e', v') -> Q e') ->
  result (RegisterPlugins entry_point (ptr this) w) = Throws (Raised e) ->
  Q e.
Proof.
  intros Hlookup Hentry Hres.
  pose proof (RegisterPlugins_exec entry_point this w) as Hexec.
  rewrite Hres in Hexec. by eapply exec_raised.
Qed.

End Further.

(** ** The further properties at concrete hosts *)


(** Two registries that differ outside the eight names, and only there,
    give the same run. *)
Lemma RegisterPlugins_consults_eight_names_witness :
  GetRegistrarForPlugin Sample.quiet "PathProviderWindows" (0, 7)
  <> GetRegistrarForPlugin Strict.registry "PathProviderWindows" (0, 7) /\
  (forall p v,
     GetRegistrarForPlugin Sample.quiet (plugin_name p) v
     = GetRegistrarForPlugin Strict.registry (plugin_name p) v) /\
  RegisterPlugins Sample.entry (ptr Sample.quiet) (0, 7)
  = RegisterPlugins Sample.entry (ptr Strict.registry) (0, 7).
Proof.
  assert (Hdiffer :
    GetRegistrarForPlugin Sample.quiet "PathProviderWindows" (0, 7)
    <> GetRegistrarForPlugin Strict.registry "PathProviderWindows" (0, 7))
    by discriminate.
  assert (Hagree : forall p v,
    GetRegistrarForPlugin Sample.quiet (plugin_name p) v
    = GetRegistrarForPlugin Strict.registry (plugin_name p) v)
    by (intros p v; destruct p; reflexivity).
  exact (conj Hdiffer (conj Hagree
           (RegisterPlugins_consults_eight_names
              Sample.entry Sample.entry Sample.quiet Strict.registry (0, 7)
              Hagree (fun _ _ _ => eq_refl)))).
Defined.

(** No call of the sample hosts touches the second component of the
    world, so it is still 7 after the run that the video plugin ends. *)
Lemma RegisterPlugins_keeps_invariant_witness :
  let Inv := fun v : Sample.world => v.2 = 7 in
  let run := RegisterPlugins Sample.picky_entry (ptr Sample.quiet) (0, 7) in
  (forall p v,
     Inv v -> Inv (GetRegistrarForPlugin Sample.quiet (plugin_name p) v).2) /\
  (forall p r v, Inv v -> Inv (Sample.picky_entry p r v).2) /\
  Inv (0, 7) /\
  result run = Throws (Raised "no video output") /\
  Inv (final run).
Proof.
  intros Inv run.
  assert (Hlookup : forall p v,
    Inv v -> Inv (GetRegistrarForPlugin Sample.quiet (plugin_name p) v).2)
    by (intros p v Hv; exact Hv).
  assert (Hentry : forall p r v, Inv v -> Inv (Sample.picky_entry p r v).2).
  { intros p r v Hv. unfold Sample.picky_entry.
    destruct (decide (p = MediaKitVideoPluginCApi)); exact Hv. }
  assert (Hstart : Inv (0, 7)) by reflexivity.
  assert (Hres : result run = Throws (Raised "no video output"))
    by reflexivity.
  exact (conj Hlookup (conj Hentry (conj Hstart (conj Hres
           (proj1 (RegisterPlugins_keeps_invariant
                     Sample.picky_entry Inv Sample.quiet (0, 7)
                     Hlookup Hentry Hstart)))))).
Defined.

(** The sample registry issues the length of the name asked for, so that
    is what the file selector's entry point is given. *)
Lemma entry_points_get_issued_registrars_witness :
  let P := fun (p : Plugin) (r : nat) => r = String.length (plugin_name p) in
  let run := RegisterPlugins Sample.entry (ptr Sample.quiet) (0, 7) in
  let ev := RegistrationCall FileSelectorWindows 19 (1, 7) (inr tt) (2, 7) in
  (forall p v r v',
     GetRegistrarForPlugin Sample.quiet (plugin_name p) v = (inr r, v') ->
     P p r) /\
  ev ∈ trace run /\
  registration_of ev = Some (FileSelectorWindows, 19) /\
  P FileSelectorWindows 19.
Proof.
  intros P run ev.
  assert (Hissue : forall p v r v',
    GetRegistrarForPlugin Sample.quiet (plugin_name p) v = (inr r, v') ->
    P p r).
  { intros p v r v' Heq. injection Heq as <- _. reflexivity. }
  assert (Hev : ev ∈ trace run)
    by (apply list_elem_of_lookup; exists 1; reflexivity).
  assert (Hreg : registration_of ev = Some (FileSelectorWindows, 19))
    by reflexivity.
  exact (conj Hissue (conj Hev (conj Hreg
           (entry_points_get_issued_registrars
              Sample.entry P Sample.quiet (0, 7) Hissue ev _ _ Hev Hreg)))).
Defined.

(** On the host where the registry may not know a plugin and the video
    plugin may have no output, a failed run failed with one of those two
    messages. *)
Lemma RegisterPlugins_raises_what_host_raised_witness :
  let Q := fun e : string => e = "unknown plugin" \/ e = "no video output" in
  let run := RegisterPlugins Sample.picky_entry (ptr Sample.picky) (0, 7) in
  (forall p v e v',
     GetRegistrarForPlugin Sample.picky (plugin_name p) v = (inl e, v') ->
     Q e) /\
  (forall p r v e v', Sample.picky_entry p r v = (inl e, v') -> Q e) /\
  result run = Throws (Raised "no video output") /\
  Q "no video output".
Proof.
  intros Q run.
  assert (Hlookup : forall p v e v',
    GetRegistrarForPlugin Sample.picky (plugin_name p) v = (inl e, v') -> Q e).
  { intros p v e v'. cbn. unfold Sample.picky_lookup.
    destruct (String.prefix "U" (plugin_name p)); intros Heq.
    - injection Heq as <- _. by left.
    - discriminate Heq. }
  assert (Hentry : forall p r v e v',
    Sample.picky_entry p r v = (inl e, v') -> Q e).
  { intros p r v e v'. unfold Sample.picky_entry.
    destruct (decide (p = MediaKitVideoPluginCApi)); intros Heq.
    - injection Heq as <- _. by right.
    - discriminate Heq. }
  assert (Hres : result run = Throws (Raised "no video output"))
    by reflexivity.
  exact (conj Hlookup (conj Hentry (conj Hres
           (RegisterPlugins_raises_what_host_raised
              Sample.picky_entry Q Sample.picky (0, 7) _
              Hlookup Hentry Hres)))).
Defined.
